(** * Shallow embedding of the circ example tools [r1cs_inspect] and [zcheck_curly]

    [src/examples/r1cs_inspect.rs] loads a serialized [ProverData] and prints a
    report of its R1CS; [src/examples/zcheck_curly.rs] runs the ZoKratesCurly
    front end under [catch_unwind] and reports the outcome.

    A process run is modelled in a small monad [M]: it threads the lines
    printed so far on standard output and standard error ([println!] and
    [eprintln!] each add one record) and either continues with a value or
    stops with an [ending] ([std::process::exit], [main] returning [Err], or a
    panic). [run_process] adds what the Rust runtime prints when [main]
    returns an error or a panic reaches the top. *)

From Stdlib Require Import ZArith Ascii String.
From stdpp Require Import base list strings gmap pretty.

Open Scope string_scope.

(** stdpp makes [String.append] opaque to [simpl]; the proofs below compute
    with it. *)
#[local] Arguments String.append : simpl nomatch.

(** ** Rust prelude *)

Inductive result (A E : Type) : Type :=
  | Ok (a : A)
  | Err (e : E).
Arguments Ok {A E} a.
Arguments Err {A E} e.

(** How a process run stopped early. *)
Inductive ending : Type :=
  | Exited (code : Z)        (* std::process::exit(code) *)
  | MainErr (dbg : string)   (* main returned Err(e); dbg is {:?} of e *)
  | Panicked (msg : string). (* a panic with this message *)

(** Exit status of a run, as the Rust runtime sets it: [main] returning
    [Ok(())] gives 0, returning [Err] gives 1, a panic gives 101. *)
Definition exit_status (e : option ending) : Z :=
  match e with
  | None => 0
  | Some (Exited c) => c
  | Some (MainErr _) => 1
  | Some (Panicked _) => 101
  end.

Inductive outcome (A : Type) : Type :=
  | Normal (a : A)
  | Stop (e : ending).
Arguments Normal {A} a.
Arguments Stop {A} e.

Record streams : Type := mk_streams {
  stdout : list string;
  stderr : list string
}.

Definition empty_streams : streams := mk_streams [] [].

Definition M (A : Type) : Type := streams -> streams * outcome A.

#[global] Instance M_ret : MRet M := fun A a st => (st, Normal a).
#[global] Instance M_bind : MBind M := fun A B f m st =>
  match m st with
  | (st', Normal a) => f a st'
  | (st', Stop e) => (st', Stop e)
  end.

Definition println (s : string) : M unit :=
  fun st => (mk_streams (stdout st ++ [s]) (stderr st), Normal tt).

Definition eprintln (s : string) : M unit :=
  fun st => (mk_streams (stdout st) (stderr st ++ [s]), Normal tt).

Definition process_exit {A} (code : Z) : M A := fun st => (st, Stop (Exited code)).

Definition panic {A} (msg : string) : M A := fun st => (st, Stop (Panicked msg)).

(** [r.unwrap()] *)
Definition unwrap {A E} (dbg : E -> string) (r : result A E) : M A :=
  match r with
  | Ok a => mret a
  | Err e => panic ("called `Result::unwrap()` on an `Err` value: " ++ dbg e)
  end.

(** [r.expect(msg)] *)
Definition expect {A E} (dbg : E -> string) (r : result A E) (msg : string) : M A :=
  match r with
  | Ok a => mret a
  | Err e => panic (msg ++ ": " ++ dbg e)
  end.

(** [r?] inside [main]: an error is returned from [main]. *)
Definition question {A E} (dbg : E -> string) (r : result A E) : M A :=
  match r with
  | Ok a => mret a
  | Err e => fun st => (st, Stop (MainErr (dbg e)))
  end.

(** [v[i]] on a [Vec<String>]: out of range panics. *)
Definition index (v : list string) (i : nat) : M string :=
  match v !! i with
  | Some x => mret x
  | None => panic ("index out of bounds: the len is " ++ pretty (length v)
                   ++ " but the index is " ++ pretty i)
  end.

(** [eprint!] of text that spans the records [ls]. *)
Definition eprint_lines (ls : list string) : M unit :=
  fun st => (mk_streams (stdout st) (stderr st ++ ls), Normal tt).

(** The backtrace setting std reads from RUST_BACKTRACE: off, or on with the
    lines the backtrace printer writes. *)
Inductive backtrace_style : Type :=
  | BacktraceOff
  | BacktraceOn (lines : list string).

(** What std's default panic hook (Rust 1.73 and later) writes on standard
    error when the main thread panics at [loc] with message [msg]. *)
Definition panic_hook_report (bt : backtrace_style) (loc msg : string) : list string :=
  ("thread 'main' panicked at " ++ loc ++ ":") :: msg ::
  match bt with
  | BacktraceOff =>
      ["note: run with `RUST_BACKTRACE=1` environment variable to display a backtrace"]
  | BacktraceOn lines => lines
  end.

(** A whole process running [m] from empty streams, with what the Rust
    runtime adds: [main] returning [Err(e)] prints "Error: {e:?}" on standard
    error and exits with 1, a panic that is not caught runs the default hook
    and exits with 101. The model does not track source positions: [loc] is
    the location the panic reports. *)
Definition run_process (bt : backtrace_style) (loc : string) (m : M unit) : streams * Z :=
  match m empty_streams with
  | (st, Normal _) => (st, 0%Z)
  | (st, Stop (Exited c)) => (st, c)
  | (st, Stop (MainErr dbg)) =>
      (mk_streams (stdout st) (stderr st ++ ["Error: " ++ dbg]), 1%Z)
  | (st, Stop (Panicked msg)) =>
      (mk_streams (stdout st) (stderr st ++ panic_hook_report bt loc msg), 101%Z)
  end.

(** [std::fmt::Error] and [impl fmt::Write for String]: [write_str] pushes the
    text and returns [Ok(())]; [write!(&mut s, ...)] formats its arguments
    ([{}] of an integer is its decimal form) and writes them that way. *)
Inductive fmt_Error : Type := FmtError.
Definition fmt_Error_debug (_ : fmt_Error) : string := "Error".

Definition write_string (s formatted : string) : result string fmt_Error :=
  Ok (s ++ formatted).

Definition is_empty (s : string) : bool :=
  match s with
  | EmptyString => true
  | String _ _ => false
  end.

Definition nl : ascii := "010"%char.

(** UTF-8 validity of a byte string, as [str::from_utf8] checks it: no
    overlong forms, no surrogates, nothing above U+10FFFF. *)
Definition byte_in (c : ascii) (lo hi : N) : bool :=
  (lo <=? N_of_ascii c)%N && (N_of_ascii c <=? hi)%N.

Fixpoint utf8_valid (s : string) : bool :=
  match s with
  | EmptyString => true
  | String c rest =>
      let n := N_of_ascii c in
      if (n <=? 127)%N then utf8_valid rest
      else match rest with
      | EmptyString => false
      | String c1 rest1 =>
          if (194 <=? n)%N && (n <=? 223)%N then byte_in c1 128 191 && utf8_valid rest1
          else match rest1 with
          | EmptyString => false
          | String c2 rest2 =>
              if (224 <=? n)%N && (n <=? 239)%N then
                (if (n =? 224)%N then byte_in c1 160 191
                 else if (n =? 237)%N then byte_in c1 128 159
                 else byte_in c1 128 191) &&
                byte_in c2 128 191 && utf8_valid rest2
              else match rest2 with
              | EmptyString => false
              | String c3 rest3 =>
                  if (240 <=? n)%N && (n <=? 244)%N then
                    (if (n =? 240)%N then byte_in c1 144 191
                     else if (n =? 244)%N then byte_in c1 128 143
                     else byte_in c1 128 191) &&
                    byte_in c2 128 191 && byte_in c3 128 191 && utf8_valid rest3
                  else false
              end
          end
      end
  end.

(** [OsString::into_string] on Unix: the bytes are the [String] when they
    are valid UTF-8, and come back as the error otherwise. *)
Definition into_string (os : string) : result string string :=
  if utf8_valid os then Ok os else Err os.

(** ** Data model of [circ::target::r1cs] *)

(** Modelled from the spec: [Var], [Lc], [R1cs] and [ProverData] of
    [circ::target::r1cs], which are not under src/. A variable is an
    index-like identifier; a field element is represented by its integer
    value [.i()]; a linear combination is a constant plus its monomials
    (variable, coefficient) in the map's iteration order. *)
Definition Var := N.

Record Lc : Type := mk_lc {
  lc_constant : Z;
  lc_monomials : list (Var * Z)
}.

Record R1cs : Type := mk_r1cs {
  r1cs_modulus : Z;
  r1cs_vars : list Var;
  r1cs_constraints : list (Lc * Lc * Lc);
  r1cs_names : gmap Var string
}.

Record Precompute : Type := mk_precompute {
  num_steps : nat;
  num_step_args : nat
}.

Record ProverData : Type := mk_prover_data {
  r1cs : R1cs;
  precompute : Precompute
}.

(** ** [print_lc] (r1cs_inspect.rs, lines 52-82) *)

(** The loop [for (var, coeff) in lc.monomials()]. *)
Fixpoint print_monomials (names : gmap Var string) (s : string)
    (ms : list (Var * Z)) : M string :=
  match ms with
  | [] => mret s
  | (var, coeff) :: ms' =>
      let s := if is_empty s then s else s ++ " + " in
      let var_name := default "?" (names !! var) in
      s ← (if Z.eqb coeff 1
           then unwrap fmt_Error_debug (write_string s var_name)
           else unwrap fmt_Error_debug (write_string s (pretty coeff ++ "*" ++ var_name)));
      print_monomials names s ms'
  end.

(** The string [s] that [print_lc] builds before printing it. *)
Definition lc_value (lc : Lc) (names : gmap Var string) : M string :=
  s ← (if negb (Z.eqb (lc_constant lc) 0)
       then unwrap fmt_Error_debug (write_string "" (pretty (lc_constant lc)))
       else mret "");
  s ← print_monomials names s (lc_monomials lc);
  mret (if is_empty s then s ++ "0" else s).

Definition print_lc (label : string) (lc : Lc) (names : gmap Var string) : M unit :=
  s ← lc_value lc names;
  println (label ++ ": " ++ s).


(** [{:3}] on an integer: right-aligned in a field of width 3. *)
Fixpoint spaces (n : nat) : string :=
  match n with
  | O => ""
  | S n' => String " " (spaces n')
  end.

Definition pad_left (w : nat) (s : string) : string :=
  spaces (w - String.length s) ++ s.

(** ** [main] of r1cs_inspect.rs *)

Section Inspector.

(** The environment the tool runs in: the file system behind [File::open],
    the bincode decoder behind [bincode::deserialize_from], and the [{:?}]
    forms of the errors and of [Var]. *)
Context {File IoError BincodeError : Type}.
Variable io_error_debug : IoError -> string.
Variable bincode_error_debug : BincodeError -> string.
Variable var_debug : Var -> string.
Variable File_open : string -> result File IoError.
Variable deserialize_from : File -> result ProverData BincodeError.
(** The [{:?}] form of an [OsString]. *)
Variable os_string_debug : string -> string.

(** The line printed for the [i]-th variable (lines 31-34). *)
Definition var_line (names : gmap Var string) (i : nat) (var : Var) : string :=
  let name := default "<unnamed>" (names !! var) in
  "Var " ++ pad_left 3 (pretty i) ++ " (" ++ var_debug var ++ "): " ++ name.

(** [for (i, var) in prover_data.r1cs.vars().iter().enumerate()] *)
Fixpoint print_vars (names : gmap Var string) (i : nat) (vars : list Var) : M unit :=
  match vars with
  | [] => mret tt
  | var :: vars' => println (var_line names i var) ;; print_vars names (S i) vars'
  end.

(** [for (i, (a, b, c)) in prover_data.r1cs.constraints().iter().enumerate()] *)
Fixpoint print_constraints (names : gmap Var string) (i : nat)
    (cs : list (Lc * Lc * Lc)) : M unit :=
  match cs with
  | [] => mret tt
  | (a, b, c) :: cs' =>
      println (String nl ("Constraint " ++ pretty i ++ ":")) ;;
      print_lc "  A" a names ;;
      print_lc "  B" b names ;;
      print_lc "  C" c names ;;
      print_constraints names (S i) cs'
  end.

(** Lines 24-47: the report on a loaded [ProverData]. *)
Definition report (pd : ProverData) : M unit :=
  let r := r1cs pd in
  println (String nl "=== R1CS Summary ===") ;;
  println ("Field modulus: " ++ pretty (r1cs_modulus r)) ;;
  println ("Number of variables: " ++ pretty (length (r1cs_vars r))) ;;
  println ("Number of constraints: " ++ pretty (length (r1cs_constraints r))) ;;
  println (String nl "=== Variables ===") ;;
  print_vars (r1cs_names r) 0 (r1cs_vars r) ;;
  println (String nl "=== Constraints ===") ;;
  print_constraints (r1cs_names r) 0 (r1cs_constraints r) ;;
  println (String nl "=== Witness Computation Info ===") ;;
  println ("Number of computation steps: " ++ pretty (num_steps (precompute pd))) ;;
  println ("Number of step arguments: " ++ pretty (num_step_args (precompute pd))).

(** The loading notice of line 17. *)
Definition loading_notice (path : string) : string :=
  "Loading ProverData from: " ++ path.

(** [env::args().collect()] (line 9): [Args::next] calls
    [into_string().unwrap()] on each argument in turn. *)
Fixpoint collect_args (os_args : list string) : M (list string) :=
  match os_args with
  | [] => mret []
  | a :: rest =>
      arg ← unwrap os_string_debug (into_string a);
      args ← collect_args rest;
      mret (arg :: args)
  end.

(** Lines 10-49: [main] once the arguments are collected. *)
Definition main_args (args : list string) : M unit :=
  (if negb (Nat.eqb (length args) 2)
   then
     arg0 ← index args 0;
     eprintln ("Usage: " ++ arg0 ++ " <prover_data_file>") ;;
     arg0 ← index args 0;
     eprintln ("Example: " ++ arg0 ++ " P") ;;
     process_exit 1
   else mret tt) ;;
  path ← index args 1;
  println (loading_notice path) ;;
  file ← question io_error_debug (File_open path);
  prover_data ← expect bincode_error_debug (deserialize_from file)
                  "Failed to deserialize ProverData";
  report prover_data ;;
  mret tt.

Definition main (os_args : list string) : M unit :=
  args ← collect_args os_args;
  main_args args.

End Inspector.

(** ** [main] of zcheck_curly.rs *)

Inductive Mode : Type := Proof | Opt.

Record Inputs : Type := mk_inputs {
  inputs_file : string;
  inputs_mode : Mode
}.

(** The payload of a panic, as [Box<dyn Any + Send>]: a [String], a
    [&'static str], or a value of another type. *)
Inductive Payload : Type :=
  | PayloadString (s : string)
  | PayloadStr (s : string)
  | PayloadOther.

Definition downcast_String (p : Payload) : option string :=
  match p with PayloadString s => Some s | _ => None end.

Definition downcast_str (p : Payload) : option string :=
  match p with PayloadStr s => Some s | _ => None end.

(** What a panic carries to the hook: its payload and its location. *)
Record PanicInfo : Type := mk_panic_info {
  panic_payload : Payload;
  panic_location : string
}.

(** The message the default hook prints: a [&str] or [String] payload as
    it is, anything else as "Box<dyn Any>". *)
Definition hook_message (p : Payload) : string :=
  match downcast_str p with
  | Some s => s
  | None => match downcast_String p with Some s => s | None => "Box<dyn Any>" end
  end.

Section Validator.

(** [CircOpt] holds the global options that [circ::cfg::set] installs before
    the front end runs; [catch_unwind_gen] is
    [std::panic::catch_unwind(|| ZSharpCurlyFE::gen(inputs))] under them: the
    computations built by the front end, or the payload and location of its
    panic. [backtrace] is the RUST_BACKTRACE setting. *)
Context {CircOpt Computations : Type}.
Variable catch_unwind_gen : CircOpt -> Inputs -> result Computations PanicInfo.
Variable backtrace : backtrace_style.

Record Options : Type := mk_options {
  options_path : string;
  options_circ : CircOpt
}.

Definition valid_msg : string := "✓ Program is valid".

Definition zcheck_main (options : Options) : M unit :=
  let inputs := mk_inputs (options_path options) Proof in
  match catch_unwind_gen (options_circ options) inputs with
  | Ok _ =>
      println valid_msg ;;
      process_exit 0
  | Err info =>
      (* the default hook reports the panic before [catch_unwind] returns *)
      eprint_lines (panic_hook_report backtrace (panic_location info)
                      (hook_message (panic_payload info))) ;;
      let e := panic_payload info in
      match downcast_String e with
      | Some msg => eprintln ("Error: " ++ msg)
      | None =>
          match downcast_str e with
          | Some msg => eprintln ("Error: " ++ msg)
          | None => eprintln "Error: Unknown parsing error"
          end
      end ;;
      process_exit 1
  end.

End Validator.

(** ** Reading the output *)

(** Whether a string holds a line feed. *)
Fixpoint has_nl (s : string) : bool :=
  match s with
  | EmptyString => false
  | String c s' => Ascii.eqb c nl || has_nl s'
  end.

(** The text written to a stream: every [println!] record followed by a
    line feed. *)
Fixpoint stream_text (rs : list string) : string :=
  match rs with
  | [] => ""
  | r :: rs' => r ++ String nl (stream_text rs')
  end.

(** The pieces of a string between its line feeds. *)
Fixpoint split_nl_go (cur s : string) : list string :=
  match s with
  | EmptyString => [cur]
  | String c s' =>
      if Ascii.eqb c nl then cur :: split_nl_go "" s'
      else split_nl_go (cur ++ String c "") s'
  end.

Definition split_nl (s : string) : list string := split_nl_go "" s.

(** The lines of a text: a final line feed ends the last line. *)
Definition lines_of (s : string) : list string :=
  let l := split_nl s in
  if String.eqb (List.last l "") "" then removelast l else l.

(** The lines of a report section: those after its header, up to the next
    empty line. *)
Fixpoint take_until_blank (ls : list string) : list string :=
  match ls with
  | [] => []
  | l :: ls' => if String.eqb l "" then [] else l :: take_until_blank ls'
  end.

Fixpoint section_lines (header : string) (ls : list string) : list string :=
  match ls with
  | [] => []
  | l :: ls' => if String.eqb l header then take_until_blank ls' else section_lines header ls'
  end.

(** The value [print_lc] renders for [lc] (it leaves the streams alone). *)
Definition rendered_lc (names : gmap Var string) (lc : Lc) : string :=
  match lc_value lc names empty_streams with
  | (_, Normal v) => v
  | (_, Stop _) => ""
  end.

(** The records [print_constraints] prints for the [i]-th constraint. *)
Definition constraint_records (names : gmap Var string) (i : nat)
    (abc : Lc * Lc * Lc) : list string :=
  let '(a, b, c) := abc in
  [String nl ("Constraint " ++ pretty i ++ ":");
   "  A: " ++ rendered_lc names a;
   "  B: " ++ rendered_lc names b;
   "  C: " ++ rendered_lc names c].

(** The records [report] prints for [pd]. *)
Definition report_records (var_debug : Var -> string) (pd : ProverData) : list string :=
  let r := r1cs pd in
  [String nl "=== R1CS Summary ===";
   "Field modulus: " ++ pretty (r1cs_modulus r);
   "Number of variables: " ++ pretty (length (r1cs_vars r));
   "Number of constraints: " ++ pretty (length (r1cs_constraints r));
   String nl "=== Variables ==="] ++
  imap (var_line var_debug (r1cs_names r)) (r1cs_vars r) ++
  [String nl "=== Constraints ==="] ++
  concat (imap (constraint_records (r1cs_names r)) (r1cs_constraints r)) ++
  [String nl "=== Witness Computation Info ===";
   "Number of computation steps: " ++ pretty (num_steps (precompute pd));
   "Number of step arguments: " ++ pretty (num_step_args (precompute pd))].

(** Whether [sub] occurs in [s]. *)
Definition contains (sub s : string) : bool :=
  match String.index 0 sub s with
  | Some _ => true
  | None => false
  end.

(** The text one monomial adds in [print_monomials], after the separator. *)
Definition monomial_text (names : gmap Var string) (m : Var * Z) : string :=
  let '(v, k) := m in
  let name := default "?" (names !! v) in
  if Z.eqb k 1 then name else pretty k ++ "*" ++ name.

(** The parts joined by " + ". *)
Fixpoint join_plus (parts : list string) : string :=
  match parts with
  | [] => ""
  | p :: ps => p ++ match ps with [] => "" | _ => " + " ++ join_plus ps end
  end.

(** Variable 0 carries the empty name. *)
Definition names_blank : gmap Var string := <[0%N := ""]> ∅.

Definition names_ab : gmap Var string := <[0%N := "a"]> ∅.

Example print_lc_ex1 :
  lc_value (mk_lc 3 [(0%N, 2%Z); (1%N, 1%Z)]) names_ab empty_streams
  = (empty_streams, Normal "3 + 2*a + ?").
Proof. vm_compute. reflexivity. Qed.

Definition pd_ex : ProverData :=
  mk_prover_data
    (mk_r1cs 17 [0%N; 1%N] [(mk_lc 3 [(0%N, 2%Z)], mk_lc 0 [(1%N, 1%Z)], mk_lc 0 [])] names_ab)
    (mk_precompute 4 5).

Definition var_debug_ex (v : Var) : string := "Var(" ++ pretty v ++ ")".

Example lines_ex :
  lines_of (stream_text (stdout (fst
    (main (fun _ : unit => "") (fun _ : unit => "") var_debug_ex
       (fun _ => Ok tt) (fun _ => Ok pd_ex) (fun a => a) ["r1cs_inspect"; "P"]
       empty_streams)))) =
  ["Loading ProverData from: P"; ""; "=== R1CS Summary ==="; "Field modulus: 17";
   "Number of variables: 2"; "Number of constraints: 1"; ""; "=== Variables ===";
   "Var   0 (Var(0)): a"; "Var   1 (Var(1)): <unnamed>"; ""; "=== Constraints ===";
   ""; "Constraint 0:"; "  A: 3 + 2*a"; "  B: ?"; "  C: 0"; "";
   "=== Witness Computation Info ==="; "Number of computation steps: 4";
   "Number of step arguments: 5"].
Proof. vm_compute. reflexivity. Qed.

(** Concrete environments for the inspector and the validator. *)
Definition dbg_ex (_ : unit) : string := "Error".
Definition var_debug_const (_ : Var) : string := "Var".
Definition open_ok (_ : string) : result unit unit := Ok tt.
Definition open_missing (_ : string) : result unit unit := Err tt.
Definition decode_ok (_ : unit) : result ProverData unit := Ok pd_ex.
Definition decode_bad (_ : unit) : result ProverData unit := Err tt.

Definition names_nl : gmap Var string := <[0%N := "a" ++ String nl "b"]> ∅.
Definition pd_nl : ProverData :=
  mk_prover_data (mk_r1cs 17 [0%N] [] names_nl) (mk_precompute 0 0).
Definition decode_nl (_ : unit) : result ProverData unit := Ok pd_nl.

Definition os_debug_ex (_ : string) : string := "OsString".
(** A one-byte argument that is not valid UTF-8. *)
Definition arg_ff : string := String "255"%char EmptyString.

Definition loc_ex : string := "gen.rs:1:1".
Definition gen_abort (p : Payload) (_ : unit) (_ : Inputs) : result unit PanicInfo :=
  Err (mk_panic_info p loc_ex).
Definition options_ex : Options (CircOpt:=unit) := mk_options "bad.zok" tt.

(** ** Lemmas on strings and decimal forms *)

Lemma str_app_assoc (a b c : string) : a ++ b ++ c = (a ++ b) ++ c.
Proof. induction a as [|x a IH]; simpl; [done|]. f_equal. exact IH. Qed.

Lemma str_app_nil_r (a : string) : a ++ "" = a.
Proof. induction a as [|x a IH]; simpl; [done|]. f_equal. exact IH. Qed.

Lemma has_nl_app (a b : string) : has_nl (a ++ b) = has_nl a || has_nl b.
Proof. induction a as [|c a IH]; simpl; [done|]. by rewrite IH, orb_assoc. Qed.

Lemma pretty_N_char_not_nl (x : N) : Ascii.eqb (pretty_N_char x) nl = false.
Proof. unfold pretty_N_char. by repeat case_match. Qed.

Lemma pretty_N_go_has_nl (x : N) : forall s, has_nl (pretty_N_go x s) = has_nl s.
Proof.
  induction x as [x IH] using (well_founded_induction N.lt_wf_0). intros s.
  destruct (decide (x = 0%N)) as [->|Hx]; [by rewrite pretty_N_go_0|].
  rewrite pretty_N_go_step by lia.
  rewrite IH; [|apply N.div_lt; lia]. simpl. by rewrite pretty_N_char_not_nl.
Qed.

Lemma pretty_N_go_suffix (x : N) : forall s, exists p, pretty_N_go x s = p ++ s.
Proof.
  induction x as [x IH] using (well_founded_induction N.lt_wf_0). intros s.
  destruct (decide (x = 0%N)) as [->|Hx]; [exists ""; by rewrite pretty_N_go_0|].
  rewrite pretty_N_go_step by lia.
  destruct (IH (x `div` 10)%N ltac:(apply N.div_lt; lia)
              (String (pretty_N_char (x `mod` 10)) s)) as [p Hp].
  rewrite Hp. exists (p ++ String (pretty_N_char (x `mod` 10)) "").
  by rewrite <- str_app_assoc.
Qed.

Lemma pretty_N_has_nl (x : N) : has_nl (pretty x) = false.
Proof.
  unfold pretty, pretty_N. case_decide; [done|]. by rewrite pretty_N_go_has_nl.
Qed.

Lemma pretty_N_not_empty (x : N) : is_empty (pretty x) = false.
Proof.
  unfold pretty, pretty_N. case_decide; [done|].
  rewrite pretty_N_go_step by lia.
  destruct (pretty_N_go_suffix (x `div` 10)%N (String (pretty_N_char (x `mod` 10)) ""))
    as [p ->].
  by destruct p.
Qed.

Lemma pretty_Z_has_nl (z : Z) : has_nl (pretty z) = false.
Proof.
  destruct z; simpl; [done| |]; unfold pretty, pretty_Z.
  - apply (pretty_N_has_nl (Npos p)).
  - simpl. apply (pretty_N_has_nl (Npos p)).
Qed.

Lemma pretty_Z_not_empty (z : Z) : is_empty (pretty z) = false.
Proof.
  destruct z; [done| |]; unfold pretty, pretty_Z; [|done].
  apply (pretty_N_not_empty (Npos p)).
Qed.

Lemma is_empty_app_l (a b : string) : is_empty a = false -> is_empty (a ++ b) = false.
Proof. by destruct a. Qed.

Lemma pretty_nat_has_nl (n : nat) : has_nl (pretty n) = false.
Proof. apply pretty_N_has_nl. Qed.

(** ** Running [print_lc] *)

Ltac run_M := unfold unwrap, write_string, mbind, M_bind, mret, M_ret in *; simpl in *.

(** All names of the mapping are one line each. *)
Definition names_one_line (names : gmap Var string) : Prop :=
  map_Forall (fun _ n => has_nl n = false) names.

Lemma print_monomials_cons (names : gmap Var string) (s : string) (v : Var) (k : Z)
    (ms : list (Var * Z)) (st : streams) :
  print_monomials names s ((v, k) :: ms) st =
  print_monomials names
    ((if is_empty s then s else s ++ " + ") ++
     (if Z.eqb k 1 then default "?" (names !! v)
      else pretty k ++ "*" ++ default "?" (names !! v))) ms st.
Proof. simpl. by destruct (Z.eqb k 1). Qed.

Lemma default_name_has_nl (names : gmap Var string) (v : Var) (d : string) :
  names_one_line names -> has_nl d = false -> has_nl (default d (names !! v)) = false.
Proof.
  intros Hn Hd. destruct (names !! v) as [n|] eqn:E; simpl; [|done].
  exact (Hn v n E).
Qed.

(** The loop over the monomials only appends to [s], and appends no line
    feed when the names have none. *)
Lemma print_monomials_extends (names : gmap Var string) (ms : list (Var * Z)) :
  forall s, exists t,
    (forall st, print_monomials names s ms st = (st, Normal (s ++ t))) /\
    (names_one_line names -> has_nl t = false).
Proof.
  induction ms as [|[v k] ms IH]; intros s.
  - exists "". split; [|done]. intros st. simpl. by rewrite str_app_nil_r.
  - set (term := if Z.eqb k 1 then default "?" (names !! v)
                 else pretty k ++ "*" ++ default "?" (names !! v)).
    set (sep := if is_empty s then "" else " + ").
    destruct (IH (s ++ sep ++ term)) as [t [Ht Hnl]].
    exists (sep ++ term ++ t). split.
    + intros st. rewrite print_monomials_cons. fold term.
      replace ((if is_empty s then s else s ++ " + ") ++ term) with (s ++ sep ++ term).
      * rewrite Ht. by rewrite !str_app_assoc.
      * unfold sep. destruct (is_empty s); [done|]. by rewrite str_app_assoc.
    + intros Hn. rewrite !has_nl_app, Hnl by done.
      assert (has_nl sep = false) as -> by (unfold sep; by destruct (is_empty s)).
      assert (has_nl term = false) as ->; [|done].
      unfold term. destruct (Z.eqb k 1).
      * by apply default_name_has_nl.
      * rewrite !has_nl_app, pretty_Z_has_nl. simpl. by apply default_name_has_nl.
Qed.

Lemma lc_value_run (lc : Lc) (names : gmap Var string) (st : streams) :
  lc_value lc names st = (st, Normal (rendered_lc names lc)).
Proof.
  unfold rendered_lc, lc_value. destruct (negb _); run_M.
  - destruct (print_monomials_extends names (lc_monomials lc) (pretty (lc_constant lc)))
      as [t [Ht _]].
    by rewrite !Ht.
  - destruct (print_monomials_extends names (lc_monomials lc) "") as [t [Ht _]].
    by rewrite !Ht.
Qed.

Lemma rendered_lc_has_nl (names : gmap Var string) (lc : Lc) :
  names_one_line names -> has_nl (rendered_lc names lc) = false.
Proof.
  intros Hn. unfold rendered_lc, lc_value.
  destruct (negb _); run_M.
  - destruct (print_monomials_extends names (lc_monomials lc) (pretty (lc_constant lc)))
      as [t [Ht Hnl]].
    rewrite Ht. destruct (is_empty _);
      rewrite ?has_nl_app, pretty_Z_has_nl, Hnl by done; done.
  - destruct (print_monomials_extends names (lc_monomials lc) "") as [t [Ht Hnl]].
    rewrite Ht. destruct (is_empty _); rewrite ?has_nl_app, Hnl by done; done.
Qed.

Lemma print_lc_run (label : string) (lc : Lc) (names : gmap Var string) (o e : list string) :
  print_lc label lc names (mk_streams o e) =
  (mk_streams (o ++ [label ++ ": " ++ rendered_lc names lc]) e, Normal tt).
Proof. unfold print_lc. unfold mbind, M_bind. rewrite lc_value_run. done. Qed.

(** ** Rendering of linear combinations *)

(** C2: a linear combination without monomials renders as the decimal form
    of its constant when the constant is nonzero, and as "0" when it is
    zero. *)
Theorem lc_no_monomials_rendering (c : Z) (names : gmap Var string) (st : streams) :
  lc_value (mk_lc c []) names st =
  (st, Normal (if Z.eqb c 0 then "0" else pretty c)).
Proof.
  unfold lc_value. simpl. destruct (Z.eqb c 0); run_M; [done|].
  by rewrite pretty_Z_not_empty.
Qed.

(** C3 (counterexample): a single variable whose display name is the empty
    string, with coefficient 1 and constant 0, renders as "0", not as its
    name. *)
Lemma single_empty_name_renders_zero :
  let names : gmap Var string := <[0%N := ""]> ∅ in
  names !! 0%N = Some "" /\
  lc_value (mk_lc 0 [(0%N, 1%Z)]) names empty_streams = (empty_streams, Normal "0") /\
  "0" <> "".
Proof. vm_compute. split; [done|]. split; [done|]. discriminate. Qed.

(** C3 (amended): in a linear combination, a monomial with coefficient 1
    contributes only its variable's resolved name (the display name, or "?"
    when the variable has none) and one with coefficient [k <> 1]
    contributes [k*name]; a single variable with coefficient 1 and constant
    0 renders as its resolved name when that is not empty (as "0" when it
    is), and with coefficient [k <> 1] as [k*name]. *)
Theorem monomial_rendering (names : gmap Var string) (v : Var) (k : Z) :
  (forall s ms st,
     print_monomials names s ((v, k) :: ms) st =
     print_monomials names
       ((if is_empty s then s else s ++ " + ") ++
        (if Z.eqb k 1 then default "?" (names !! v)
         else pretty k ++ "*" ++ default "?" (names !! v))) ms st) /\
  (k = 1%Z -> forall st,
     lc_value (mk_lc 0 [(v, k)]) names st =
     (st, Normal (if is_empty (default "?" (names !! v)) then "0"
                  else default "?" (names !! v)))) /\
  (k <> 1%Z -> forall st,
     lc_value (mk_lc 0 [(v, k)]) names st =
     (st, Normal (pretty k ++ "*" ++ default "?" (names !! v)))).
Proof.
  split; [|split].
  - intros s ms st. apply print_monomials_cons.
  - intros -> st. unfold lc_value. run_M. by destruct (default "?" (names !! v)).
  - intros Hk st. unfold lc_value. run_M.
    apply Z.eqb_neq in Hk. rewrite Hk. simpl.
    by rewrite is_empty_app_l by apply pretty_Z_not_empty.
Qed.

Lemma monomial_rendering_witness :
  lc_value (mk_lc 0 [(1%N, 1%Z)]) names_ab empty_streams = (empty_streams, Normal "?").
Proof.
  destruct (monomial_rendering names_ab 1%N 1%Z) as [_ [H _]].
  exact (H eq_refl empty_streams).
Defined.

(** C4: a variable absent from the name mapping gets "<unnamed>" in its
    Variables line and "?" in every monomial that mentions it. *)
Theorem unnamed_variable_tokens (var_debug : Var -> string) (names : gmap Var string)
    (v : Var) (i : nat) :
  names !! v = None ->
  var_line var_debug names i v =
    "Var " ++ pad_left 3 (pretty i) ++ " (" ++ var_debug v ++ "): <unnamed>" /\
  (forall k s ms st,
     print_monomials names s ((v, k) :: ms) st =
     print_monomials names
       ((if is_empty s then s else s ++ " + ") ++
        (if Z.eqb k 1 then "?" else pretty k ++ "*?")) ms st) /\
  (forall st, lc_value (mk_lc 0 [(v, 1%Z)]) names st = (st, Normal "?")).
Proof.
  intros Hv. split; [|split].
  - unfold var_line. by rewrite Hv.
  - intros k s ms st. by rewrite print_monomials_cons, Hv.
  - intros st. unfold lc_value. run_M. by rewrite Hv.
Qed.

Lemma unnamed_variable_tokens_witness :
  names_ab !! 1%N = None /\
  var_line var_debug_ex names_ab 1 1%N = "Var   1 (Var(1)): <unnamed>".
Proof.
  split; [reflexivity|].
  destruct (unnamed_variable_tokens var_debug_ex names_ab 1%N 1 eq_refl) as [H _].
  rewrite H. vm_compute. reflexivity.
Defined.

(** C9: with a nonzero constant and at least one monomial, the rendering
    starts with the constant's decimal form followed by " + ". *)
Theorem constant_rendered_first (c : Z) (ms : list (Var * Z)) (names : gmap Var string) :
  c <> 0%Z -> ms <> [] ->
  exists t, forall st,
    lc_value (mk_lc c ms) names st = (st, Normal (pretty c ++ " + " ++ t)).
Proof.
  intros Hc Hms. destruct ms as [|[v k] ms]; [done|].
  set (term := if Z.eqb k 1 then default "?" (names !! v)
               else pretty k ++ "*" ++ default "?" (names !! v)).
  destruct (print_monomials_extends names ms (pretty c ++ " + " ++ term)) as [t [Ht _]].
  exists (term ++ t). intros st.
  assert (Hstep : print_monomials names (pretty c) ((v, k) :: ms) st =
                  print_monomials names (pretty c ++ " + " ++ term) ms st).
  { rewrite print_monomials_cons, pretty_Z_not_empty. fold term.
    by rewrite <- str_app_assoc. }
  apply Z.eqb_neq in Hc.
  unfold lc_value. cbn [lc_constant lc_monomials]. rewrite Hc.
  change ((let (st', o) := print_monomials names (pretty c) ((v, k) :: ms) st in
     match o with
     | Normal a => (st', Normal (if is_empty a then a ++ "0" else a))
     | Stop e => (st', Stop e)
     end) = (st, Normal (pretty c ++ " + " ++ term ++ t))).
  rewrite Hstep, Ht.
  rewrite <- !str_app_assoc.
  by rewrite is_empty_app_l by apply pretty_Z_not_empty.
Qed.

(** ** Running the inspector *)

Lemma println_bind {A} (s : string) (m : M A) (o e : list string) :
  (println s ;; m) (mk_streams o e) = m (mk_streams (o ++ [s]) e).
Proof. reflexivity. Qed.

Lemma print_vars_run (var_debug : Var -> string) (names : gmap Var string)
    (vars : list Var) :
  forall i o e,
    print_vars var_debug names i vars (mk_streams o e) =
    (mk_streams (o ++ imap (fun j v => var_line var_debug names (i + j) v) vars) e,
     Normal tt).
Proof.
  induction vars as [|v vars IH]; intros i o e; simpl.
  - by rewrite app_nil_r.
  - rewrite println_bind, IH, <- app_assoc. simpl. rewrite Nat.add_0_r.
    assert (imap (fun j v => var_line var_debug names (S (i + j)) v) vars =
            imap ((fun j v => var_line var_debug names (i + j) v) ∘ S) vars) as ->.
    { apply imap_ext. intros j x _. simpl. f_equal. lia. }
    reflexivity.
Qed.

Lemma print_constraints_run (names : gmap Var string) (cs : list (Lc * Lc * Lc)) :
  forall i o e,
    print_constraints names i cs (mk_streams o e) =
    (mk_streams (o ++ concat (imap (fun j abc => constraint_records names (i + j) abc) cs)) e,
     Normal tt).
Proof.
  induction cs as [|[[a b] c] cs IH]; intros i o e; simpl.
  - by rewrite app_nil_r.
  - rewrite println_bind. unfold mbind at 1, M_bind at 1. rewrite print_lc_run.
    unfold mbind at 1, M_bind at 1. rewrite print_lc_run.
    unfold mbind at 1, M_bind at 1. rewrite print_lc_run.
    rewrite IH. rewrite Nat.add_0_r, <- !app_assoc. simpl.
    assert (imap (fun j abc => constraint_records names (S (i + j)) abc) cs =
            imap ((fun j abc => constraint_records names (i + j) abc) ∘ S) cs) as ->.
    { apply imap_ext. intros j x _. simpl. f_equal. lia. }
    reflexivity.
Qed.

Lemma report_run (var_debug : Var -> string) (pd : ProverData) (o e : list string) :
  report var_debug pd (mk_streams o e) =
  (mk_streams (o ++ report_records var_debug pd) e, Normal tt).
Proof.
  unfold report, report_records. rewrite !println_bind.
  unfold mbind at 1, M_bind at 1. rewrite print_vars_run, println_bind.
  unfold mbind at 1, M_bind at 1. rewrite print_constraints_run, !println_bind.
  unfold println. simpl. rewrite <- !app_assoc. reflexivity.
Qed.

Lemma Forall_imap {A B} (P : B -> Prop) (f : nat -> A -> B) (l : list A) :
  (forall i x, P (f i x)) -> Forall P (imap f l).
Proof.
  revert f. induction l as [|x l IH]; intros f Hf; simpl; constructor; auto.
  apply (IH (fun i => f (S i))). intros; apply Hf.
Qed.

(** ** Lines of the printed text *)

Lemma split_nl_go_app (r t : string) :
  forall cur, split_nl_go cur (r ++ String nl t) = (split_nl_go cur r ++ split_nl_go "" t)%list.
Proof.
  induction r as [|c r IH]; intros cur; simpl.
  - done.
  - destruct (Ascii.eqb c nl); [by rewrite IH|]. apply IH.
Qed.

Lemma split_nl_go_one_line (r : string) :
  forall cur, has_nl r = false -> split_nl_go cur r = [cur ++ r].
Proof.
  induction r as [|c r IH]; intros cur Hr; simpl in *.
  - by rewrite str_app_nil_r.
  - apply orb_false_iff in Hr as [Hc Hr]. rewrite Hc, IH by done.
    by rewrite <- str_app_assoc.
Qed.

Lemma split_nl_one_line (r : string) : has_nl r = false -> split_nl r = [r].
Proof. intros Hr. unfold split_nl. by rewrite split_nl_go_one_line. Qed.

Lemma split_nl_blank_first (r : string) :
  has_nl r = false -> split_nl (String nl r) = [""; r].
Proof. intros Hr. unfold split_nl. simpl. by rewrite split_nl_go_one_line. Qed.

Lemma split_nl_stream_text (rs : list string) :
  split_nl (stream_text rs) = (concat (map split_nl rs) ++ [""])%list.
Proof.
  induction rs as [|r rs IH]; [done|]. simpl.
  unfold split_nl at 1. rewrite split_nl_go_app. fold (split_nl r).
  fold (split_nl (stream_text rs)). rewrite IH. by rewrite app_assoc.
Qed.

(** The lines of the text of a stream are the pieces of its records. *)
Lemma lines_of_stream_text (rs : list string) :
  lines_of (stream_text rs) = concat (map split_nl rs).
Proof.
  unfold lines_of. rewrite split_nl_stream_text, List.last_last.
  simpl. by rewrite List.removelast_last.
Qed.

Lemma split_records_one_line (rs : list string) :
  Forall (fun r => has_nl r = false) rs -> concat (map split_nl rs) = rs.
Proof.
  induction 1 as [|r rs Hr _ IH]; [done|]. simpl. by rewrite split_nl_one_line, IH.
Qed.

Lemma split_records_imap {A} (f g : nat -> A -> list string) (l : list A) :
  (forall i x, concat (map split_nl (f i x)) = g i x) ->
  concat (map split_nl (concat (imap f l))) = concat (imap g l).
Proof.
  revert f g. induction l as [|x l IH]; intros f g Hfg; [done|]. simpl.
  rewrite map_app, concat_app, Hfg. f_equal.
  apply (IH (fun i => f (S i)) (fun i => g (S i))). intros; apply Hfg.
Qed.

Lemma var_line_one_line (var_debug : Var -> string) (names : gmap Var string)
    (i : nat) (v : Var) :
  has_nl (var_debug v) = false -> names_one_line names ->
  has_nl (var_line var_debug names i v) = false.
Proof.
  intros Hv Hn. unfold var_line, pad_left.
  rewrite !has_nl_app, Hv, pretty_nat_has_nl, default_name_has_nl by done. simpl.
  assert (forall n, has_nl (spaces n) = false) as Hsp by (induction n; simpl; auto).
  by rewrite Hsp.
Qed.

(** No record of the report starts with the letter L. *)
Lemma report_records_first_char (var_debug : Var -> string) (pd : ProverData) :
  Forall (fun r => String.get 0 r <> Some "L"%char) (report_records var_debug pd).
Proof.
  unfold report_records.
  repeat (apply Forall_app; split); repeat constructor; try discriminate.
  - apply Forall_imap. intros i x. discriminate.
  - apply Forall_concat, Forall_imap. intros i [[a b] c].
    repeat constructor; discriminate.
Qed.

Section Runs.

Context {File IoError BincodeError CircOpt Computations : Type}.
Variable catch_unwind_gen : CircOpt -> Inputs -> result Computations PanicInfo.
Variable backtrace : backtrace_style.
Variable io_error_debug : IoError -> string.
Variable bincode_error_debug : BincodeError -> string.
Variable var_debug : Var -> string.
Variable File_open : string -> result File IoError.
Variable deserialize_from : File -> result ProverData BincodeError.
Variable os_string_debug : string -> string.

(** A run of the inspector from line 10 on, once [env::args()] has
    collected the arguments [args]. *)
Let run (args : list string) : streams * outcome unit :=
  main_args io_error_debug bincode_error_debug var_debug File_open deserialize_from
    args empty_streams.

(** A run of the inspector on the command line [os_args], the arguments as
    the bytes the process receives. *)
Let run_os (os_args : list string) : streams * outcome unit :=
  main io_error_debug bincode_error_debug var_debug File_open deserialize_from
    os_string_debug os_args empty_streams.

(** The same run as a whole process, with the runtime's reports. *)
Let process (loc : string) (os_args : list string) : streams * Z :=
  run_process backtrace loc
    (main io_error_debug bincode_error_debug var_debug File_open deserialize_from
       os_string_debug os_args).

(** A run of the validator with the options [options]. *)
Let validate (options : Options) : streams * outcome unit :=
  zcheck_main catch_unwind_gen backtrace options empty_streams.

(** The panic message of [env::args()] on an argument [a] that is not
    valid UTF-8. *)
Let args_panic (a : string) : string :=
  "called `Result::unwrap()` on an `Err` value: " ++ os_string_debug a.

Lemma collect_args_valid (os_args : list string) (st : streams) :
  Forall (fun a => utf8_valid a = true) os_args ->
  collect_args os_string_debug os_args st = (st, Normal os_args).
Proof.
  intros H. revert st. induction H as [|a rest Ha Hr IH]; intros st; [done|].
  cbn [collect_args]. unfold into_string. rewrite Ha. run_M. by rewrite IH.
Qed.

Lemma collect_args_invalid (pre : list string) (a : string) (post : list string)
    (st : streams) :
  Forall (fun a => utf8_valid a = true) pre -> utf8_valid a = false ->
  collect_args os_string_debug (pre ++ a :: post) st = (st, Stop (Panicked (args_panic a))).
Proof.
  intros H Ha. revert st. induction H as [|b rest Hb Hr IH]; intros st.
  - cbn [app collect_args]. unfold into_string. rewrite Ha. run_M. reflexivity.
  - cbn [app collect_args]. unfold into_string. rewrite Hb. run_M. by rewrite IH.
Qed.

Lemma main_decoded (os_args : list string) :
  Forall (fun a => utf8_valid a = true) os_args -> run_os os_args = run os_args.
Proof.
  intros H. unfold run_os, run, main, mbind, M_bind.
  by rewrite collect_args_valid.
Qed.

Lemma main_invalid (pre : list string) (a : string) (post : list string) :
  Forall (fun a => utf8_valid a = true) pre -> utf8_valid a = false ->
  run_os (pre ++ a :: post) = (empty_streams, Stop (Panicked (args_panic a))).
Proof.
  intros H Ha. unfold run_os, main, mbind, M_bind.
  by rewrite collect_args_invalid.
Qed.

Lemma main_usage (prog : string) (paths : list string) :
  length paths <> 1 ->
  run (prog :: paths) =
  (mk_streams [] ["Usage: " ++ prog ++ " <prover_data_file>";
                  "Example: " ++ prog ++ " P"], Stop (Exited 1)).
Proof.
  intros Hlen. unfold run, main_args.
  assert (Nat.eqb (length (prog :: paths)) 2 = false) as Hn.
  { apply Nat.eqb_neq. simpl. lia. }
  rewrite Hn. run_M. done.
Qed.

Lemma main_open_error (prog path : string) (err : IoError) :
  File_open path = Err err ->
  run [prog; path] =
  (mk_streams [loading_notice path] [], Stop (MainErr (io_error_debug err))).
Proof. intros Hopen. unfold run, main_args. run_M. rewrite Hopen. done. Qed.

Lemma main_decode_error (prog path : string) (f : File) (err : BincodeError) :
  File_open path = Ok f -> deserialize_from f = Err err ->
  run [prog; path] =
  (mk_streams [loading_notice path] [],
   Stop (Panicked ("Failed to deserialize ProverData: " ++ bincode_error_debug err))).
Proof. intros Hopen Hdec. unfold run, main_args. run_M. rewrite Hopen. run_M. rewrite Hdec. done. Qed.

Lemma main_loaded (prog path : string) (f : File) (pd : ProverData) :
  File_open path = Ok f -> deserialize_from f = Ok pd ->
  run [prog; path] =
  (mk_streams (loading_notice path :: report_records var_debug pd) [], Normal tt).
Proof.
  intros Hopen Hdec. unfold run, main_args. run_M. rewrite Hopen. run_M. rewrite Hdec.
  run_M. by rewrite report_run.
Qed.

(** C6 (amended): when the program name and every argument are valid
    UTF-8, the inspector prints its usage message and exits with status 1
    for zero or two or more path arguments, and for one path that cannot be
    opened prints only the loading notice (no report section) while [main]
    returns the error (status 1); an argument that is not valid UTF-8 makes
    [env::args()] panic before any output (status 101). *)
Theorem inspector_bad_invocation (prog : string) :
  utf8_valid prog = true ->
  (forall paths, Forall (fun a => utf8_valid a = true) paths -> length paths <> 1 ->
     run_os (prog :: paths) =
     (mk_streams [] ["Usage: " ++ prog ++ " <prover_data_file>";
                     "Example: " ++ prog ++ " P"], Stop (Exited 1)) /\
     exit_status (Some (Exited 1)) <> 0%Z) /\
  (forall path err, utf8_valid path = true -> File_open path = Err err ->
     run_os [prog; path] =
     (mk_streams [loading_notice path] [], Stop (MainErr (io_error_debug err))) /\
     exit_status (Some (MainErr (io_error_debug err))) <> 0%Z) /\
  (forall pre a post, Forall (fun a => utf8_valid a = true) pre -> utf8_valid a = false ->
     run_os (pre ++ a :: post) = (empty_streams, Stop (Panicked (args_panic a))) /\
     exit_status (Some (Panicked (args_panic a))) = 101%Z).
Proof.
  intros Hprog. split; [|split].
  - intros paths Hp Hlen. split; [|done].
    rewrite main_decoded by (constructor; done). by apply main_usage.
  - intros path err Hpath Hopen. split; [|done].
    rewrite main_decoded by (repeat constructor; done). by apply main_open_error.
  - intros pre a post Hpre Ha. split; [|done]. by apply main_invalid.
Qed.

(** C10 (amended): with one path argument, when the program name and the
    path are valid UTF-8, the loading notice is the first record on
    standard output; when opening fails it is the only output, when decoding
    fails it is the only standard output before the panic, and on success it
    is not repeated by the report. *)
Theorem loading_notice_once (prog path : string) :
  utf8_valid prog = true -> utf8_valid path = true ->
  (forall err, File_open path = Err err ->
     stdout (fst (run_os [prog; path])) = [loading_notice path] /\
     stderr (fst (run_os [prog; path])) = []) /\
  (forall f err, File_open path = Ok f -> deserialize_from f = Err err ->
     stdout (fst (run_os [prog; path])) = [loading_notice path] /\
     stderr (fst (run_os [prog; path])) = []) /\
  (forall f pd, File_open path = Ok f -> deserialize_from f = Ok pd ->
     exists rest, stdout (fst (run_os [prog; path])) = loading_notice path :: rest /\
       loading_notice path ∉ rest).
Proof.
  intros Hprog Hpath.
  rewrite main_decoded by (repeat constructor; done).
  split; [|split].
  - intros err Hopen. by rewrite (main_open_error prog path err Hopen).
  - intros f err Hopen Hdec. by rewrite (main_decode_error prog path f err Hopen Hdec).
  - intros f pd Hopen Hdec. rewrite (main_loaded prog path f pd Hopen Hdec).
    exists (report_records var_debug pd). split; [done|].
    intros Hin. pose proof (report_records_first_char var_debug pd) as HF.
    rewrite Forall_forall in HF. by apply (HF _ Hin).
Qed.

(** C1 (amended): when no display name and no [{:?}] form of a variable
    holds a line feed, the lines of the inspector's output are the loading
    notice, the summary, a Variables section of exactly one line per
    variable (zero-based index, native order), a Constraints section of one
    block per constraint (a header and the lines A, B and C, in this
    order), and the witness computation info. *)
Theorem inspector_report_layout (prog path : string) (f : File) (pd : ProverData) :
  File_open path = Ok f -> deserialize_from f = Ok pd ->
  (forall v, has_nl (var_debug v) = false) ->
  names_one_line (r1cs_names (r1cs pd)) ->
  snd (run [prog; path]) = Normal tt /\
  lines_of (stream_text (stdout (fst (run [prog; path])))) = (
    split_nl (loading_notice path) ++
    [""; "=== R1CS Summary ===";
     "Field modulus: " +:+ pretty (r1cs_modulus (r1cs pd));
     "Number of variables: " +:+ pretty (length (r1cs_vars (r1cs pd)));
     "Number of constraints: " +:+ pretty (length (r1cs_constraints (r1cs pd)));
     ""; "=== Variables ==="] ++
    imap (var_line var_debug (r1cs_names (r1cs pd))) (r1cs_vars (r1cs pd)) ++
    [""; "=== Constraints ==="] ++
    concat (imap (fun i '(a, b, c) =>
      [""; "Constraint " +:+ pretty i +:+ ":";
       "  A: " +:+ rendered_lc (r1cs_names (r1cs pd)) a;
       "  B: " +:+ rendered_lc (r1cs_names (r1cs pd)) b;
       "  C: " +:+ rendered_lc (r1cs_names (r1cs pd)) c]) (r1cs_constraints (r1cs pd))) ++
    [""; "=== Witness Computation Info ===";
     "Number of computation steps: " +:+ pretty (num_steps (precompute pd));
     "Number of step arguments: " +:+ pretty (num_step_args (precompute pd))])%list.
Proof.
  intros Hopen Hdec Hvd Hn.
  rewrite (main_loaded prog path f pd Hopen Hdec). split; [done|].
  simpl fst. cbn [stdout]. rewrite lines_of_stream_text.
  unfold report_records. cbn [map concat].
  rewrite !map_app, !concat_app. cbn [map concat].
  rewrite !split_nl_blank_first by done.
  rewrite (split_nl_one_line ("Field modulus: " +:+ _)),
    (split_nl_one_line ("Number of variables: " +:+ _)),
    (split_nl_one_line ("Number of constraints: " +:+ _)),
    (split_nl_one_line ("Number of computation steps: " +:+ _)),
    (split_nl_one_line ("Number of step arguments: " +:+ _))
    by (rewrite ?has_nl_app, ?pretty_Z_has_nl, ?pretty_nat_has_nl; done).
  rewrite split_records_one_line.
  2:{ apply Forall_imap. intros i v. by apply var_line_one_line. }
  rewrite (split_records_imap _ (fun i '(a, b, c) =>
      [""; "Constraint " +:+ pretty i +:+ ":";
       "  A: " +:+ rendered_lc (r1cs_names (r1cs pd)) a;
       "  B: " +:+ rendered_lc (r1cs_names (r1cs pd)) b;
       "  C: " +:+ rendered_lc (r1cs_names (r1cs pd)) c])).
  2:{ intros i [[a b] c]. cbn [constraint_records map].
      rewrite split_nl_blank_first
        by (rewrite ?has_nl_app, ?pretty_nat_has_nl; done).
      rewrite (split_nl_one_line ("  A: " +:+ _)), (split_nl_one_line ("  B: " +:+ _)),
        (split_nl_one_line ("  C: " +:+ _))
        by (rewrite ?has_nl_app, ?rendered_lc_has_nl; done).
      reflexivity. }
  reflexivity.
Qed.

(** C5: when the front end aborts, the validator prints nothing on
    standard output and exits with status 1; on standard error, after the
    default hook's report of the panic, it prints "Error: " followed by the
    payload when the payload is a [String] or a [&str], and "Error: Unknown
    parsing error" otherwise. *)
Theorem validator_abort_message (options : Options) (p : Payload) (loc : string) :
  catch_unwind_gen (options_circ options) (mk_inputs (options_path options) Proof) =
    Err (mk_panic_info p loc) ->
  stdout (fst (validate options)) = [] /\
  snd (validate options) = Stop (Exited 1) /\
  exit_status (Some (Exited 1)) <> 0%Z /\
  (forall msg, p = PayloadString msg \/ p = PayloadStr msg ->
     stderr (fst (validate options)) =
     app (panic_hook_report backtrace loc msg) ["Error: " ++ msg]) /\
  (p = PayloadOther ->
     stderr (fst (validate options)) =
     app (panic_hook_report backtrace loc "Box<dyn Any>") ["Error: Unknown parsing error"]).
Proof.
  intros Hgen. unfold validate, zcheck_main. simpl. rewrite Hgen. simpl.
  destruct p as [m|m|]; (split; [done|]); (split; [done|]); (split; [done|]); split.
  - intros msg [[= ->]|?]; [done|discriminate].
  - discriminate.
  - intros msg [?|[= ->]]; [discriminate|done].
  - discriminate.
  - intros msg [?|?]; discriminate.
  - done.
Qed.

(** C7 (amended): what each failure path prints. An argument that is not
    valid UTF-8 prints nothing of the tool's own, and the panic hook reports
    the [env::args()] panic with its location (status 101). A wrong argument
    count prints the Usage and the Example line (status 1). An unreadable
    file prints the loading notice, then the runtime prints "Error: " and the
    [{:?}] form of the I/O error (status 1). An undecodable artifact prints
    the loading notice, then the panic hook reports "Failed to deserialize
    ProverData: " and the decoder's error with the panic's location (status
    101). An intercepted front-end abort prints the panic hook's report and
    then "Error: <message>" (status 1). *)
Theorem failure_path_reports (loc prog path : string) :
  (forall pre a post, Forall (fun a => utf8_valid a = true) pre -> utf8_valid a = false ->
     process loc (pre ++ a :: post) =
     (mk_streams [] (panic_hook_report backtrace loc (args_panic a)), 101%Z)) /\
  (utf8_valid prog = true ->
   forall paths, Forall (fun a => utf8_valid a = true) paths -> length paths <> 1 ->
     process loc (prog :: paths) =
     (mk_streams [] ["Usage: " ++ prog ++ " <prover_data_file>";
                     "Example: " ++ prog ++ " P"], 1%Z)) /\
  (utf8_valid prog = true -> utf8_valid path = true ->
   forall err, File_open path = Err err ->
     process loc [prog; path] =
     (mk_streams [loading_notice path] ["Error: " ++ io_error_debug err], 1%Z)) /\
  (utf8_valid prog = true -> utf8_valid path = true ->
   forall f err, File_open path = Ok f -> deserialize_from f = Err err ->
     process loc [prog; path] =
     (mk_streams [loading_notice path]
        (panic_hook_report backtrace loc
           ("Failed to deserialize ProverData: " ++ bincode_error_debug err)), 101%Z)) /\
  (forall options info,
     catch_unwind_gen (options_circ options) (mk_inputs (options_path options) Proof) =
       Err info ->
     exists msg,
       validate options =
       (mk_streams []
          (app (panic_hook_report backtrace (panic_location info)
                  (hook_message (panic_payload info))) ["Error: " ++ msg]),
        Stop (Exited 1))).
Proof.
  split; [|split; [|split; [|split]]].
  - intros pre a post Hpre Ha. unfold process, run_process.
    fold (run_os (pre ++ a :: post)). by rewrite main_invalid.
  - intros Hprog paths Hp Hlen. unfold process, run_process.
    fold (run_os (prog :: paths)).
    rewrite main_decoded by (constructor; done). by rewrite (main_usage prog paths Hlen).
  - intros Hprog Hpath err Hopen. unfold process, run_process.
    fold (run_os [prog; path]).
    rewrite main_decoded by (repeat constructor; done).
    by rewrite (main_open_error prog path err Hopen).
  - intros Hprog Hpath f err Hopen Hdec. unfold process, run_process.
    fold (run_os [prog; path]).
    rewrite main_decoded by (repeat constructor; done).
    by rewrite (main_decode_error prog path f err Hopen Hdec).
  - intros options [p l] Hgen. unfold validate, zcheck_main. simpl. rewrite Hgen. simpl.
    destruct p as [msg|msg|]; [exists msg; done|exists msg; done|].
    exists "Unknown parsing error". done.
Qed.

End Runs.

(** C8: the report stage cannot fail. [print_lc] always prints its line
    (every [write!] into the [String] returns [Ok], so no [unwrap] panics),
    and the whole report always runs to its end, printing its records,
    whatever the constants, monomials and names. *)
Theorem report_generation_total (var_debug : Var -> string) :
  (forall label lc names st,
     print_lc label lc names st =
     (mk_streams (stdout st ++ [label ++ ": " ++ rendered_lc names lc]) (stderr st),
      Normal tt)) /\
  (forall pd st,
     report var_debug pd st =
     (mk_streams (stdout st ++ report_records var_debug pd) (stderr st), Normal tt)).
Proof.
  split.
  - intros label lc names [o e]. apply print_lc_run.
  - intros pd [o e]. apply report_run.
Qed.

(** ** Counterexamples *)

(** C1 (counterexample): a single variable whose display name holds a line
    feed takes two lines of the Variables section. *)
Lemma variables_section_multiline_name :
  let out := stdout (fst (main dbg_ex dbg_ex var_debug_ex open_ok decode_nl os_debug_ex
                            ["r1cs_inspect"; "P"] empty_streams)) in
  length (r1cs_vars (r1cs pd_nl)) = 1 /\
  section_lines "=== Variables ===" (lines_of (stream_text out)) =
    ["Var   0 (Var(0)): a"; "b"].
Proof. vm_compute. split; reflexivity. Qed.

(** C6 (counterexample): with two path arguments, the first of them the
    byte 0xFF, the inspector prints no usage message: [env::args()] panics,
    and the only text on standard error is the panic hook's report; the
    status is 101. *)
Lemma non_utf8_argument_skips_usage :
  run_process BacktraceOff loc_ex
    (main dbg_ex dbg_ex var_debug_ex open_ok decode_ok os_debug_ex
       ["r1cs_inspect"; arg_ff; "b"]) =
  (mk_streams []
     (panic_hook_report BacktraceOff loc_ex
        "called `Result::unwrap()` on an `Err` value: OsString"), 101%Z).
Proof. vm_compute. reflexivity. Qed.

(** C7 (counterexample): a wrong argument count prints two lines on
    standard error. *)
Lemma usage_message_two_lines :
  let r := main dbg_ex dbg_ex var_debug_ex open_ok decode_ok os_debug_ex ["r1cs_inspect"]
             empty_streams in
  lines_of (stream_text (stderr (fst r))) =
    ["Usage: r1cs_inspect <prover_data_file>"; "Example: r1cs_inspect P"] /\
  snd r = Stop (Exited 1).
Proof. vm_compute. split; reflexivity. Qed.

(** C10 (counterexample): with one path argument that is the byte 0xFF,
    the loading notice is never printed: [env::args()] panics first. *)
Lemma non_utf8_path_skips_notice :
  main dbg_ex dbg_ex var_debug_ex open_ok decode_ok os_debug_ex ["r1cs_inspect"; arg_ff]
    empty_streams =
  (empty_streams,
   Stop (Panicked "called `Result::unwrap()` on an `Err` value: OsString")).
Proof. vm_compute. reflexivity. Qed.

(** ** Witnesses: the theorems at concrete inputs *)

Lemma inspector_report_layout_witness :
  names_one_line (r1cs_names (r1cs pd_ex)) /\
  snd (main_args dbg_ex dbg_ex var_debug_const open_ok decode_ok ["r1cs_inspect"; "P"]
         empty_streams) = Normal tt.
Proof.
  assert (Hn : names_one_line (r1cs_names (r1cs pd_ex))).
  { apply (bool_decide_unpack _). vm_compute. reflexivity. }
  split; [exact Hn|].
  destruct (inspector_report_layout dbg_ex dbg_ex var_debug_const open_ok decode_ok
              "r1cs_inspect" "P" tt pd_ex eq_refl eq_refl (fun _ => eq_refl) Hn) as [H _].
  exact H.
Defined.

Lemma validator_abort_message_witness :
  stderr (fst (zcheck_main (gen_abort (PayloadString "parse error")) BacktraceOff options_ex
                 empty_streams)) =
  app (panic_hook_report BacktraceOff loc_ex "parse error") ["Error: parse error"].
Proof.
  destruct (validator_abort_message (gen_abort (PayloadString "parse error")) BacktraceOff
              options_ex (PayloadString "parse error") loc_ex eq_refl) as [_ [_ [_ [H _]]]].
  exact (H "parse error" (or_introl eq_refl)).
Defined.

Lemma inspector_bad_invocation_witness :
  snd (main dbg_ex dbg_ex var_debug_ex open_missing decode_ok os_debug_ex ["r1cs_inspect"]
         empty_streams) = Stop (Exited 1) /\
  main dbg_ex dbg_ex var_debug_ex open_missing decode_ok os_debug_ex
    ["r1cs_inspect"; "missing"] empty_streams =
  (mk_streams [loading_notice "missing"] [], Stop (MainErr "Error")).
Proof.
  destruct (inspector_bad_invocation dbg_ex dbg_ex var_debug_ex open_missing decode_ok
              os_debug_ex "r1cs_inspect" eq_refl) as [H1 [H2 _]].
  split.
  - destruct (H1 [] ltac:(constructor) ltac:(simpl; lia)) as [-> _]. reflexivity.
  - destruct (H2 "missing" tt eq_refl eq_refl) as [-> _]. reflexivity.
Defined.

Lemma failure_path_reports_witness :
  run_process BacktraceOff loc_ex
    (main dbg_ex dbg_ex var_debug_ex open_ok decode_bad os_debug_ex ["r1cs_inspect"; "P"]) =
  (mk_streams [loading_notice "P"]
     (panic_hook_report BacktraceOff loc_ex "Failed to deserialize ProverData: Error"),
   101%Z).
Proof.
  destruct (failure_path_reports (gen_abort PayloadOther) BacktraceOff dbg_ex dbg_ex
              var_debug_ex open_ok decode_bad os_debug_ex loc_ex "r1cs_inspect" "P")
    as [_ [_ [_ [H4 _]]]].
  exact (H4 eq_refl eq_refl tt tt eq_refl eq_refl).
Defined.

Lemma constant_rendered_first_witness :
  exists t, lc_value (mk_lc 3 [(0%N, 2%Z)]) names_ab empty_streams =
            (empty_streams, Normal (pretty 3%Z ++ " + " ++ t)).
Proof.
  destruct (constant_rendered_first 3 [(0%N, 2%Z)] names_ab ltac:(lia) ltac:(discriminate))
    as [t Ht].
  exists t. apply Ht.
Defined.

Lemma loading_notice_once_witness :
  stdout (fst (main dbg_ex dbg_ex var_debug_ex open_missing decode_ok os_debug_ex
                 ["r1cs_inspect"; "missing"] empty_streams)) =
  [loading_notice "missing"].
Proof.
  destruct (loading_notice_once dbg_ex dbg_ex var_debug_ex open_missing decode_ok
              os_debug_ex "r1cs_inspect" "missing" eq_refl eq_refl) as [H1 _].
  destruct (H1 tt eq_refl) as [H _]. exact H.
Defined.

(** ** Further properties of the two tools *)

Section MoreRuns.

Context {File IoError BincodeError CircOpt Computations : Type}.
Variable catch_unwind_gen : CircOpt -> Inputs -> result Computations PanicInfo.
Variable backtrace : backtrace_style.
Variable io_error_debug : IoError -> string.
Variable bincode_error_debug : BincodeError -> string.
Variable var_debug : Var -> string.
Variable File_open : string -> result File IoError.
Variable deserialize_from : File -> result ProverData BincodeError.
Variable os_string_debug : string -> string.

(** When the front end returns normally, the validator prints only its
    success line on standard output, nothing on standard error, and exits
    with status 0. *)
Theorem validator_success (options : Options) (c : Computations) :
  catch_unwind_gen (options_circ options) (mk_inputs (options_path options) Proof) = Ok c ->
  zcheck_main catch_unwind_gen backtrace options empty_streams =
  (mk_streams [valid_msg] [], Stop (Exited 0)) /\
  exit_status (Some (Exited 0)) = 0%Z.
Proof. intros Hgen. split; [|done]. unfold zcheck_main. simpl. by rewrite Hgen. Qed.

(** With an empty argument vector the inspector panics on [args[0]] before
    printing anything, whatever the file system and the decoder. *)
Theorem inspector_empty_argv :
  main io_error_debug bincode_error_debug var_debug File_open deserialize_from
    os_string_debug [] empty_streams =
  (empty_streams, Stop (Panicked "index out of bounds: the len is 0 but the index is 0")).
Proof. reflexivity. Qed.

End MoreRuns.

(** The value [print_lc] prints is never empty. *)
Theorem rendered_lc_not_empty (names : gmap Var string) (lc : Lc) :
  rendered_lc names lc <> "".
Proof.
  unfold rendered_lc, lc_value. destruct (negb _); run_M.
  - destruct (print_monomials_extends names (lc_monomials lc) (pretty (lc_constant lc)))
      as [t [Ht _]].
    rewrite Ht. by destruct (pretty (lc_constant lc) ++ t).
  - destruct (print_monomials_extends names (lc_monomials lc) "") as [t [Ht _]].
    rewrite Ht. by destruct ("" ++ t).
Qed.

Lemma join_plus_cons (p : string) (ps : list string) :
  join_plus (p :: ps) = p ++ match ps with [] => "" | _ => " + " ++ join_plus ps end.
Proof. reflexivity. Qed.

Lemma print_monomials_join (names : gmap Var string) (ms : list (Var * Z)) :
  (forall m, m ∈ ms -> monomial_text names m <> "") ->
  forall s st,
    print_monomials names s ms st =
    (st, Normal (join_plus ((if is_empty s then [] else [s]) ++ map (monomial_text names) ms))).
Proof.
  induction ms as [|[v k] ms IH]; intros Hne s st.
  - simpl. destruct s; simpl; [done|]. by rewrite str_app_nil_r.
  - rewrite print_monomials_cons.
    assert (Ht : monomial_text names (v, k) <> "") by (apply Hne; left).
    change (if Z.eqb k 1 then default "?" (names !! v)
            else pretty k ++ "*" ++ default "?" (names !! v))
      with (monomial_text names (v, k)).
    rewrite IH by (intros m Hm; apply Hne; by right).
    cbn [map]. remember (monomial_text names (v, k)) as t eqn:Et0. clear Et0.
    destruct (is_empty s) eqn:Es.
    + destruct s; [|discriminate]. destruct t as [|x t]; [done|]. reflexivity.
    + assert (is_empty ((s ++ " + ") ++ t) = false) as ->
        by (destruct s; [discriminate|reflexivity]).
      cbn [app]. rewrite !join_plus_cons. rewrite <- !str_app_assoc.
      destruct (map (monomial_text names) ms); reflexivity.
Qed.

Lemma join_plus_fallback (parts : list string) :
  Forall (fun p => p <> "") parts ->
  (if is_empty (join_plus parts) then join_plus parts ++ "0" else join_plus parts) =
  match parts with [] => "0" | p :: ps => join_plus (p :: ps) end.
Proof.
  intros HP. destruct parts as [|p ps]; [done|].
  apply Forall_cons in HP as [Hp _]. rewrite join_plus_cons.
  destruct p; [done|]. reflexivity.
Qed.

(** When every monomial adds some text (its coefficient is not 1 or its
    name is not empty), the rendering is the nonzero constant and the
    monomials' texts in iteration order, joined by " + ", and "0" when there
    is nothing to join. *)
Theorem rendered_lc_join (names : gmap Var string) (c : Z) (ms : list (Var * Z)) :
  (forall m, m ∈ ms -> monomial_text names m <> "") ->
  rendered_lc names (mk_lc c ms) =
  match app (if Z.eqb c 0 then [] else [pretty c]) (map (monomial_text names) ms) with
  | [] => "0"
  | p :: ps => join_plus (p :: ps)
  end.
Proof.
  intros Hne.
  assert (HP : Forall (fun p => p <> "")
                 (app (if Z.eqb c 0 then [] else [pretty c]) (map (monomial_text names) ms))).
  { apply Forall_app. split.
    - destruct (Z.eqb c 0); constructor; [|constructor].
      pose proof (pretty_Z_not_empty c) as H. intros E. by rewrite E in H.
    - apply Forall_map, Forall_forall. exact Hne. }
  etransitivity; [|exact (join_plus_fallback _ HP)].
  unfold rendered_lc, lc_value. cbn [lc_constant lc_monomials].
  destruct (Z.eqb c 0) eqn:Ec; run_M; rewrite (print_monomials_join names ms Hne);
    [reflexivity|by rewrite pretty_Z_not_empty].
Qed.

Lemma print_monomials_names_local (names1 names2 : gmap Var string) (ms : list (Var * Z)) :
  (forall v k, (v, k) ∈ ms -> names1 !! v = names2 !! v) ->
  forall s st, print_monomials names1 s ms st = print_monomials names2 s ms st.
Proof.
  induction ms as [|[v k] ms IH]; intros Hn s st; [done|].
  rewrite !print_monomials_cons.
  rewrite (Hn v k) by left.
  apply IH. intros v' k' Hin. apply (Hn v' k'). by right.
Qed.

(** The rendering of a linear combination reads the name mapping only at
    the variables of its monomials. *)
Theorem rendered_lc_names_local (names1 names2 : gmap Var string) (lc : Lc) :
  (forall v k, (v, k) ∈ lc_monomials lc -> names1 !! v = names2 !! v) ->
  rendered_lc names1 lc = rendered_lc names2 lc.
Proof.
  intros Hn. unfold rendered_lc, lc_value.
  destruct (negb _); run_M; by rewrite (print_monomials_names_local names1 names2 _ Hn).
Qed.

(** A monomial with coefficient 1 whose variable is named "" after a
    nonzero constant leaves a dangling separator: the rendering is the
    constant followed by " + ". *)
Theorem empty_name_dangling_separator (names : gmap Var string) (c : Z) (v : Var) :
  c <> 0%Z -> names !! v = Some "" ->
  rendered_lc names (mk_lc c [(v, 1%Z)]) = pretty c ++ " + ".
Proof.
  intros Hc Hv. apply Z.eqb_neq in Hc.
  unfold rendered_lc, lc_value. cbn [lc_constant lc_monomials]. rewrite Hc. run_M.
  rewrite Hv, pretty_Z_not_empty. simpl.
  rewrite str_app_nil_r. by rewrite is_empty_app_l by apply pretty_Z_not_empty.
Qed.

(** ** Witnesses of the further properties *)

Lemma validator_success_witness :
  zcheck_main (fun (_ : unit) (_ : Inputs) => @Ok unit PanicInfo tt) BacktraceOff options_ex
    empty_streams =
  (mk_streams [valid_msg] [], Stop (Exited 0)).
Proof.
  destruct (validator_success (fun (_ : unit) (_ : Inputs) => @Ok unit PanicInfo tt)
              BacktraceOff options_ex tt eq_refl) as [H _].
  exact H.
Defined.

Lemma rendered_lc_join_witness :
  rendered_lc names_ab (mk_lc 3 [(0%N, 2%Z); (1%N, 5%Z)]) = "3 + 2*a + 5*?".
Proof.
  rewrite rendered_lc_join.
  - vm_compute. reflexivity.
  - intros m Hm. repeat (apply elem_of_cons in Hm as [->|Hm]; [vm_compute; discriminate|]).
    by apply elem_of_nil in Hm.
Defined.

Lemma rendered_lc_names_local_witness :
  rendered_lc names_ab (mk_lc 0 [(0%N, 1%Z)]) =
  rendered_lc (<[1%N := "b"]> names_ab) (mk_lc 0 [(0%N, 1%Z)]).
Proof.
  apply rendered_lc_names_local. intros v k Hin.
  apply elem_of_cons in Hin as [Hin|Hin]; [|by apply elem_of_nil in Hin].
  injection Hin as -> ->. reflexivity.
Defined.

Lemma empty_name_dangling_separator_witness :
  rendered_lc names_blank (mk_lc 3 [(0%N, 1%Z)]) = "3 + ".
Proof.
  etransitivity;
    [exact (empty_name_dangling_separator names_blank 3 0%N ltac:(lia)
              ltac:(vm_compute; reflexivity))|].
  vm_compute. reflexivity.
Defined.
